(** * Keyboard multi-select helpers of app/src/lib/utils/selection.ts

    Shallow embedding of [getNextFile], [getPreviousFile] and
    [maybeMoveSelection].  The selection manager ([FileIdSelection]) and
    the DOM focus calls are effects: [maybeMoveSelection] yields the list
    of calls it makes, in order, and [runEffects] applies them to the
    view state. *)

From Stdlib Require Import String List ZArith Bool Lia.
Import ListNotations.
Open Scope string_scope.
Open Scope Z_scope.

Module Selection.

(** ** Data *)

(** [AnyFile]: only the [id] field is read by the helpers. *)
Record AnyFile := mkFile { id : string }.

(** A DOM element in the file list: its own handle and its siblings. *)
Record HTMLElement := mkElement {
  elemHandle : nat;
  previousElementSibling : option nat;
  nextElementSibling : option nat
}.

(** Modelled from the spec: [fileIdSelection.ts] ([stringifyFileKey],
    [unstringifyFileKey]) is not in the sources.  The spec describes the
    selection set as a sequence of stringified file identifiers; a key is
    the stringified identifier and decodes back to it. *)
Definition FileKey := string.
Definition stringifyFileKey (fileId : string) : FileKey := fileId.
Definition unstringifyFileKey (key : FileKey) : string := key.

(** Modelled from the spec: [getSelectionDirection.ts] is not in the
    sources.  Called as [getSelectionDirection(lastIndex, firstIndex)]:
    [down] when the last-selected position is greater than the
    first-selected one, [up] when it is less, none ([undefined]) when
    equal. *)
Inductive Direction := Up | Down.

Definition direction_eqb (a b : Direction) : bool :=
  match a, b with Up, Up | Down, Down => true | _, _ => false end.

Definition getSelectionDirection (lastIndex firstIndex : Z) : option Direction :=
  if firstIndex <? lastIndex then Some Down
  else if lastIndex <? firstIndex then Some Up
  else None.

(** [selectionDirection === d] on the [string | undefined] variable. *)
Definition dir_is (o : option Direction) (d : Direction) : bool :=
  match o with Some d' => direction_eqb d' d | None => false end.

(** ** JS array primitives *)

(** [Array.prototype.findIndex]: first index satisfying [p], or -1. *)
Fixpoint findIndex {A} (p : A -> bool) (xs : list A) : Z :=
  match xs with
  | [] => -1
  | x :: r =>
      if p x then 0
      else let i := findIndex p r in if i =? -1 then -1 else i + 1
  end.

(** [xs[i]]: [undefined] outside the array. *)
Definition at_index {A} (xs : list A) (i : Z) : option A :=
  if 0 <=? i then nth_error xs (Z.to_nat i) else None.

(** [xs.includes(x)] on strings. *)
Definition includes (xs : list string) (x : string) : bool :=
  existsb (String.eqb x) xs.

(** ** Adjacent-file lookups (selection.ts, lines 9-17) *)

Definition getNextFile (files : list AnyFile) (currentId : string) : option AnyFile :=
  let fileIndex := findIndex (fun f => String.eqb (id f) currentId) files in
  if negb (fileIndex =? -1) && (fileIndex + 1 <? Z.of_nat (length files))
  then at_index files (fileIndex + 1)
  else None.

Definition getPreviousFile (files : list AnyFile) (currentId : string) : option AnyFile :=
  let fileIndex := findIndex (fun f => String.eqb (id f) currentId) files in
  if 0 <? fileIndex then at_index files (fileIndex - 1) else None.

(** ** Effects of [maybeMoveSelection] *)

Inductive Effect :=
| SelAdd (fileId : string)      (** [fileIdSelection.add(fileId)] *)
| SelRemove (fileId : string)   (** [fileIdSelection.remove(fileId)] *)
| SelClear                      (** [fileIdSelection.clear()] *)
| FocusElem (e : nat).          (** [element.focus()] *)

Record MoveSelectionParams := mkParams {
  allowMultiple : bool;
  shiftKey : bool;
  key : string;
  targetElement : HTMLElement;
  file : AnyFile;
  files : list AnyFile;
  selectedFileIds : list FileKey
}.

(** The calls made, and the final value of the local [selectionDirection]. *)
Record MoveResult := mkResult {
  effects : list Effect;
  selectionDirection : option Direction
}.

Section MaybeMoveSelection.

Variable p : MoveSelectionParams.

Let files_ := files p.
Let selected := selectedFileIds p.

Definition getAndAddFile
    (getFileFunc : list AnyFile -> string -> option AnyFile) (fid : string)
    : list Effect :=
  match getFileFunc files_ fid with
  | Some f =>
      (* if file is already selected, do nothing *)
      if includes selected (stringifyFileKey (id f)) then []
      else [SelAdd (id f)]
  | None => []
  end.

Definition getAndClearAndAddFile
    (getFileFunc : list AnyFile -> string -> option AnyFile) (fid : string)
    : list Effect :=
  match getFileFunc files_ fid with
  | Some f => [SelClear; SelAdd (id f)]
  | None => []
  end.

Definition focusSibling (sib : option nat) : list Effect :=
  match sib with Some e => [FocusElem e] | None => [] end.

(** One arm of the [switch]: [getFile] is [getPreviousFile] for [ArrowUp]
    and [getNextFile] for [ArrowDown]; [towards] is the key's direction,
    [opposite] the one that shrinks the range; [sibling] the element to
    focus. *)
Definition moveArm (getFile : list AnyFile -> string -> option AnyFile)
    (towards opposite : Direction) (sibling : option nat)
    (lastFileId : string) (selectionDirection0 : option Direction) : MoveResult :=
  if shiftKey p && allowMultiple p then
    if Nat.eqb (length selected) 1 then
      mkResult (getAndAddFile getFile lastFileId) (Some towards)
    else if dir_is selectionDirection0 opposite then
      mkResult (SelRemove lastFileId :: getAndAddFile getFile lastFileId)
               selectionDirection0
    else mkResult (getAndAddFile getFile lastFileId) selectionDirection0
  else
    mkResult
      (focusSibling sibling ++
       (if Nat.ltb 1 (length selected)
        then getAndClearAndAddFile getFile lastFileId
        else getAndClearAndAddFile getFile (id (file p))))
      selectionDirection0.

Definition maybeMoveSelection : MoveResult :=
  match selected with
  | [] => mkResult [] None
  | first :: _ =>
      let firstFileId := unstringifyFileKey first in
      let lastFileId := unstringifyFileKey (last selected first) in
      let selectionDirection0 :=
        getSelectionDirection
          (findIndex (fun f => String.eqb (id f) lastFileId) files_)
          (findIndex (fun f => String.eqb (id f) firstFileId) files_) in
      if String.eqb (key p) "ArrowUp" then
        moveArm getPreviousFile Up Down
          (previousElementSibling (targetElement p)) lastFileId selectionDirection0
      else if String.eqb (key p) "ArrowDown" then
        moveArm getNextFile Down Up
          (nextElementSibling (targetElement p)) lastFileId selectionDirection0
      else mkResult [] selectionDirection0
  end.

End MaybeMoveSelection.

(** ** The view state the effects act on *)

Record ViewState := mkView {
  selection : list FileKey;
  focused : nat
}.

(** Modelled from the spec: [FileIdSelection] is not in the sources.
    [add] appends the key (order reflects selection history), [remove]
    drops the identifier's key, [clear] empties the selection. *)
Definition applyEffect (s : ViewState) (e : Effect) : ViewState :=
  match e with
  | SelAdd fid => mkView (selection s ++ [stringifyFileKey fid]) (focused s)
  | SelRemove fid =>
      mkView (filter (fun k => negb (String.eqb k (stringifyFileKey fid))) (selection s))
             (focused s)
  | SelClear => mkView [] (focused s)
  | FocusElem e => mkView (selection s) e
  end.

Definition runEffects (s : ViewState) (es : list Effect) : ViewState :=
  fold_left applyEffect es s.

(** A keystroke on the view: the caller passes the current selection. *)
Definition keystroke (s : ViewState) (allowMultiple shiftKey : bool) (key : string)
    (target : HTMLElement) (file : AnyFile) (files : list AnyFile) : ViewState :=
  runEffects s (effects (maybeMoveSelection
    (mkParams allowMultiple shiftKey key target file files (selection s)))).

(** ** Access-token hand-over of apps/web/src/routes/+layout.svelte

    The [$effect] reads the stored token, falls back to the
    [gb_access_token] URL parameter, stores the token, and strips the
    parameter from the URL by navigating to the remaining query. *)
Module Layout.

(** [URLSearchParams] as its (name, value) pairs, in order. *)
Definition SearchParams := list (string * string).

(** [params.get(name)]: the value of the first pair with that name. *)
Definition searchGet (ps : SearchParams) (name : string) : option string :=
  match find (fun kv => String.eqb (fst kv) name) ps with
  | Some kv => Some (snd kv)
  | None => None
  end.

(** [params.has(name)]. *)
Definition searchHas (ps : SearchParams) (name : string) : bool :=
  existsb (fun kv => String.eqb (fst kv) name) ps.

(** [params.delete(name)]: drops every pair with that name. *)
Definition searchDelete (ps : SearchParams) (name : string) : SearchParams :=
  filter (fun kv => negb (String.eqb (fst kv) name)) ps.

(** JS truthiness of a [string | null]: [null] and [""] are falsy. *)
Definition truthy (o : option string) : bool :=
  match o with Some v => negb (String.eqb v "") | None => false end.

(** [a || b] on [string | null]. *)
Definition orElse (a b : option string) : option string :=
  if truthy a then a else b.

Definition gbAccessToken := "gb_access_token".

(** The calls the effect makes: [authService.setToken(token)] and
    [goto(`?${params.toString()}`)], the latter given by the parameters
    the query string is built from. *)
Inductive LayoutCall :=
| SetToken (token : string)
| Goto (query : SearchParams).

(** One run of the [$effect]: the stored token ([get(authService.token)])
    and the page's search parameters in; the calls made and the search
    parameters after the in-place [delete] out. *)
Definition tokenEffect (stored : option string) (params : SearchParams)
    : list LayoutCall * SearchParams :=
  let token := orElse stored (searchGet params gbAccessToken) in
  if truthy token then
    let setCall := match token with Some tok => [SetToken tok] | None => [] end in
    if searchHas params gbAccessToken then
      let params' := searchDelete params gbAccessToken in
      ((setCall ++ [Goto params'])%list, params')
    else (setCall, params)
  else ([], params).

End Layout.

(** ** Concrete inputs *)

Definition fA := mkFile "A".
Definition fB := mkFile "B".
Definition fC := mkFile "C".
Definition fD := mkFile "D".
Definition filesABCD := [fA; fB; fC; fD].
Definition elem1 := mkElement 1 (Some 0%nat) (Some 2%nat).
Definition elem0 := mkElement 0 None (Some 1%nat).

Example ex_down_extend :
  keystroke (mkView ["B"] 1) true true "ArrowDown" elem1 fB filesABCD
  = mkView ["B"; "C"] 1.
Proof. reflexivity. Qed.

Example ex_up_reset :
  keystroke (mkView ["A"; "B"; "C"] 2) true false "ArrowUp"
    (mkElement 2 (Some 1%nat) (Some 3%nat)) fC filesABCD
  = mkView ["B"] 1.
Proof. reflexivity. Qed.

(** ** Lemmas on the JS primitives *)

(** Case on the first [if] of the goal. *)
Ltac case_if :=
  match goal with
  | |- context [if ?b then _ else _] => let Hb := fresh "Hb" in destruct b eqn:Hb
  end.

Lemma findIndex_cases {A} (p : A -> bool) (xs : list A) :
  (findIndex p xs = -1 /\ forall x, In x xs -> p x = false) \/
  (exists n x, findIndex p xs = Z.of_nat n /\ nth_error xs n = Some x /\ p x = true /\
     forall j y, (j < n)%nat -> nth_error xs j = Some y -> p y = false).
Proof.
  induction xs as [|a r IH]; simpl.
  - left. split; [reflexivity | intros x []].
  - destruct (p a) eqn:Ha.
    + right. exists 0%nat, a. repeat split; auto. intros j y Hj. lia.
    + destruct IH as [[H1 H2] | (n & x & H1 & H2 & H3 & H4)].
      * left. rewrite H1. split; [reflexivity|].
        intros x [<- | Hx]; auto.
      * right. exists (S n), x. rewrite H1.
        replace (Z.of_nat n =? -1) with false by lia.
        repeat split; auto; [lia|].
        intros [|j] y Hj Hy; simpl in Hy.
        -- congruence.
        -- apply (H4 j y); [lia | exact Hy].
Qed.

Lemma at_index_nat {A} (xs : list A) (n : nat) :
  at_index xs (Z.of_nat n) = nth_error xs n.
Proof.
  unfold at_index. rewrite (proj2 (Z.leb_le _ _)) by lia.
  now rewrite Nat2Z.id.
Qed.

Lemma findIndex_same {A} (p q : A -> bool) (xs : list A) :
  (forall x, p x = q x) -> findIndex p xs = findIndex q xs.
Proof.
  intros H. induction xs as [|a r IH]; simpl; [reflexivity|].
  rewrite H, IH. reflexivity.
Qed.

Lemma getSelectionDirection_refl (i : Z) : getSelectionDirection i i = None.
Proof. unfold getSelectionDirection. now rewrite Z.ltb_irrefl. Qed.

Lemma map_id_nth_error (fs : list AnyFile) (j : nat) (x : string) :
  nth_error (map id fs) j = Some x -> exists g, nth_error fs j = Some g /\ id g = x.
Proof.
  rewrite nth_error_map. destruct (nth_error fs j) as [g|]; simpl; [|discriminate].
  intros H. injection H as <-. eauto.
Qed.

Lemma runEffects_app (s : ViewState) (es1 es2 : list Effect) :
  runEffects s (es1 ++ es2) = runEffects (runEffects s es1) es2.
Proof. unfold runEffects. apply fold_left_app. Qed.

Lemma getNextFile_at (fs : list AnyFile) (x : string) (i : nat) :
  findIndex (fun f => String.eqb (id f) x) fs = Z.of_nat i ->
  getNextFile fs x = nth_error fs (S i).
Proof.
  intros H1. unfold getNextFile. rewrite H1.
  replace (Z.of_nat i =? -1) with false by lia. cbn [negb andb].
  destruct (Z.ltb_spec (Z.of_nat i + 1) (Z.of_nat (length fs))).
  - replace (Z.of_nat i + 1) with (Z.of_nat (S i)) by lia.
    exact (at_index_nat fs (S i)).
  - symmetry. apply nth_error_None. simpl. lia.
Qed.

Lemma getPreviousFile_at (fs : list AnyFile) (x : string) (i : nat) :
  findIndex (fun f => String.eqb (id f) x) fs = Z.of_nat i ->
  getPreviousFile fs x = match i with O => None | S k => nth_error fs k end.
Proof.
  intros H1. unfold getPreviousFile. rewrite H1. destruct i as [|k].
  - reflexivity.
  - rewrite (proj2 (Z.ltb_lt _ _)) by lia.
    replace (Z.of_nat (S k) - 1) with (Z.of_nat k) by lia.
    exact (at_index_nat fs k).
Qed.

Lemma adjacent_absent (fs : list AnyFile) (x : string) :
  ~ In x (map id fs) -> getNextFile fs x = None /\ getPreviousFile fs x = None.
Proof.
  intros Hx.
  destruct (findIndex_cases (fun f => String.eqb (id f) x) fs)
    as [[H1 _] | (n & g & H1 & H2 & H3 & _)].
  - unfold getNextFile, getPreviousFile. rewrite H1. split; reflexivity.
  - exfalso. apply Hx. apply String.eqb_eq in H3. rewrite <- H3.
    apply in_map. eapply nth_error_In. exact H2.
Qed.

Lemma getPreviousFile_neq (fs : list AnyFile) (x : string) (g : AnyFile) :
  getPreviousFile fs x = Some g -> id g <> x.
Proof.
  intros Hg E.
  destruct (findIndex_cases (fun f => String.eqb (id f) x) fs)
    as [[H1 _] | (n & h & H1 & _ & _ & H4)].
  - unfold getPreviousFile in Hg. rewrite H1 in Hg. discriminate.
  - rewrite (getPreviousFile_at fs x n H1) in Hg. destruct n as [|k]; [discriminate|].
    specialize (H4 k g ltac:(lia) Hg). rewrite E, String.eqb_refl in H4. discriminate.
Qed.

Lemma includes_false (xs : list string) (x : string) :
  includes xs x = false -> ~ In x xs.
Proof.
  unfold includes. intros H Hin.
  assert (existsb (String.eqb x) xs = true) as H' by
    (apply existsb_exists; exists x; split; [exact Hin | apply String.eqb_refl]).
  congruence.
Qed.

Lemma NoDup_snoc {A} (l : list A) (x : A) :
  NoDup l -> ~ In x l -> NoDup (l ++ [x]).
Proof.
  induction l as [|a r IH]; simpl; intros Hl Hx.
  - constructor; [intros []|constructor].
  - apply NoDup_cons_iff in Hl as [Ha Hr]. constructor.
    + rewrite in_app_iff. intros [H | [H | []]]; [contradiction | apply Hx; auto].
    + apply IH; auto.
Qed.

Lemma clear_position (l1 l2 pre post : list Effect) :
  ~ In SelClear l1 -> ~ In SelClear l2 ->
  (l1 ++ SelClear :: l2 = pre ++ SelClear :: post)%list -> post = l2.
Proof.
  revert pre. induction l1 as [|a r IH]; intros pre H1 H2 E.
  - destruct pre as [|b pre']; simpl in E.
    + injection E as E. auto.
    + injection E as E1 E2. exfalso. apply H2. rewrite E2.
      apply in_or_app. right. left. reflexivity.
  - destruct pre as [|b pre']; simpl in E; injection E as E1 E2.
    + subst. exfalso. apply H1. left. reflexivity.
    + apply (IH pre'); auto. intros H. apply H1. right. exact H.
Qed.

Lemma selection_runEffects_app_nil (s : ViewState) :
  selection (runEffects s []) = selection s.
Proof. reflexivity. Qed.

Lemma runEffects_add_nonempty (s : ViewState) (es : list Effect) (fid : string) :
  selection (runEffects s (es ++ [SelAdd fid])%list) <> [].
Proof.
  rewrite runEffects_app. simpl. intros H.
  apply app_eq_nil in H as [_ H]. discriminate.
Qed.

(** The direction [maybeMoveSelection] starts from, for a selection
    whose first key is [first] and last key is [lastKey]. *)
Definition initialDirection (fs : list AnyFile) (first lastKey : FileKey) : option Direction :=
  getSelectionDirection
    (findIndex (fun f => String.eqb (id f) (unstringifyFileKey lastKey)) fs)
    (findIndex (fun f => String.eqb (id f) (unstringifyFileKey first)) fs).

Lemma maybeMoveSelection_cons (am sk : bool) (k : string) (t : HTMLElement)
    (f : AnyFile) (fs : list AnyFile) (first : FileKey) (others : list FileKey) :
  let sel := first :: others in
  let p0 := mkParams am sk k t f fs sel in
  let lastFileId := unstringifyFileKey (last sel first) in
  let d := initialDirection fs first (last sel first) in
  maybeMoveSelection p0 =
    if String.eqb k "ArrowUp" then
      moveArm p0 getPreviousFile Up Down (previousElementSibling t) lastFileId d
    else if String.eqb k "ArrowDown" then
      moveArm p0 getNextFile Down Up (nextElementSibling t) lastFileId d
    else mkResult [] d.
Proof. reflexivity. Qed.

(** [g] is the file next to, or previous to, the file [x] in [fs]. *)
Definition adjacent (fs : list AnyFile) (x : string) (g : AnyFile) : Prop :=
  getPreviousFile fs x = Some g \/ getNextFile fs x = Some g.

Lemma selection_runEffects_focus (s : ViewState) (o : option nat) :
  selection (runEffects s (focusSibling o)) = selection s.
Proof. destruct o; reflexivity. Qed.

Lemma initialDirection_same (fs : list AnyFile) (first lastKey : FileKey) (d : Direction) :
  dir_is (initialDirection fs first lastKey) d = true ->
  unstringifyFileKey first <> unstringifyFileKey lastKey.
Proof.
  unfold initialDirection. intros H E. rewrite E, getSelectionDirection_refl in H.
  discriminate.
Qed.

(** The calls one arm of the [switch] makes, for a non-empty selection
    [first :: others]: when extending, an optional [remove] of the
    last-selected identifier (only with more than one selected, and only
    when it differs from the first one), then at most one [add] of an
    adjacent file that is not in the snapshot; otherwise an optional focus
    move, then either nothing or [clear] followed by [add] of a file
    adjacent to the last-selected one (more than one selected) or to the
    focused file [f] (one selected). *)
Definition ArmShape (am sk : bool) (f : AnyFile) (fs : list AnyFile)
    (first : FileKey) (others : list FileKey) (effs : list Effect) : Prop :=
  let sel := first :: others in
  let lastId := unstringifyFileKey (last sel first) in
  let src := if Nat.ltb 1 (length sel) then lastId else id f in
  (sk && am = true /\ exists pre post, effs = (pre ++ post)%list /\
     (pre = [] \/ (pre = [SelRemove lastId] /\ (1 < length sel)%nat /\
                   unstringifyFileKey first <> lastId)) /\
     (post = [] \/ exists g, adjacent fs lastId g /\ post = [SelAdd (id g)] /\
                   includes sel (stringifyFileKey (id g)) = false)) \/
  (sk && am = false /\ exists o post, effs = (focusSibling o ++ post)%list /\
     (post = [] \/ exists g, adjacent fs src g /\ post = [SelClear; SelAdd (id g)])).

Lemma moveArm_shape (am sk : bool) (k : string) (t : HTMLElement) (f : AnyFile)
    (fs : list AnyFile) (first : FileKey) (others : list FileKey)
    (getFile : list AnyFile -> string -> option AnyFile) (tw op : Direction)
    (sib : option nat) :
  (forall x g, getFile fs x = Some g -> adjacent fs x g) ->
  let sel := first :: others in
  ArmShape am sk f fs first others
    (effects (moveArm (mkParams am sk k t f fs sel) getFile tw op sib
                (unstringifyFileKey (last sel first))
                (initialDirection fs first (last sel first)))).
Proof.
  intros Hadj. unfold ArmShape. cbv zeta.
  set (sel := first :: others). set (lastKey := last sel first).
  set (p0 := mkParams am sk k t f fs sel).
  assert (Hadd : getAndAddFile p0 getFile (unstringifyFileKey lastKey) = [] \/
                 exists g, adjacent fs (unstringifyFileKey lastKey) g /\
                   getAndAddFile p0 getFile (unstringifyFileKey lastKey) = [SelAdd (id g)] /\
                   includes sel (stringifyFileKey (id g)) = false).
  { unfold getAndAddFile. cbn [files selectedFileIds p0].
    destruct (getFile fs (unstringifyFileKey lastKey)) as [g|] eqn:Hg; [|now left].
    destruct (includes sel (stringifyFileKey (id g))) eqn:Hi; [now left|].
    right. exists g. auto. }
  unfold moveArm. change (shiftKey p0 && allowMultiple p0) with (sk && am).
  change (selectedFileIds p0) with sel.
  destruct (sk && am) eqn:Hsa.
  - left. split; [reflexivity|].
    case_if; [|case_if]; cbn [effects].
    + exists [], (getAndAddFile p0 getFile (unstringifyFileKey lastKey)).
      split; [reflexivity|]. split; [now left | exact Hadd].
    + exists [SelRemove (unstringifyFileKey lastKey)],
        (getAndAddFile p0 getFile (unstringifyFileKey lastKey)).
      split; [reflexivity|]. split; [|exact Hadd]. right.
      split; [reflexivity|]. split.
      * apply Nat.eqb_neq in Hb. simpl in Hb |- *. lia.
      * apply (initialDirection_same fs first lastKey op Hb0).
    + exists [], (getAndAddFile p0 getFile (unstringifyFileKey lastKey)).
      split; [reflexivity|]. split; [now left | exact Hadd].
  - right. split; [reflexivity|].
    exists sib. eexists; split; [reflexivity|].
    unfold getAndClearAndAddFile. simpl.
    case_if;
      match goal with
      | |- context [getFile fs ?x] => destruct (getFile fs x) as [g|] eqn:Hg
      end;
      [right; exists g; split; [apply Hadj; exact Hg | reflexivity] | left; reflexivity
      |right; exists g; split; [apply Hadj; exact Hg | reflexivity] | left; reflexivity].
Qed.

Lemma maybeMoveSelection_shape (am sk : bool) (k : string) (t : HTMLElement)
    (f : AnyFile) (fs : list AnyFile) (first : FileKey) (others : list FileKey) :
  let effs := effects (maybeMoveSelection (mkParams am sk k t f fs (first :: others))) in
  effs = [] \/ ArmShape am sk f fs first others effs.
Proof.
  cbv zeta. rewrite maybeMoveSelection_cons. cbv zeta.
  case_if; [|case_if].
  - right. apply moveArm_shape. intros x g H. now left.
  - right. apply moveArm_shape. intros x g H. now right.
  - left. reflexivity.
Qed.

(** ** Claims *)

(** C1. Spec example: on [A;B;C;D], [B] extended down gives [B;C]; then
    [ArrowUp] with the extend modifier is claimed to give [B;A].  It does
    not: [C] is removed, and the file previous to the last-selected [C]
    is [B], already in the selection snapshot, so nothing is added. *)
Lemma C1_reversal_counterexample :
  selection (keystroke (keystroke (mkView ["B"] 1) true true "ArrowDown" elem1 fB filesABCD)
               true true "ArrowUp" elem1 fB filesABCD) <> ["B"; "A"].
Proof. vm_compute. discriminate. Qed.

(** C1 (amended). From [B], extending down gives [B;C]; extending up
    from there removes [C] and adds nothing, so the selection is back to
    [B], whatever element and file have focus. *)
Theorem C1_reversal_returns_to_anchor (t : HTMLElement) (f : AnyFile) (n : nat) :
  let s1 := keystroke (mkView ["B"] n) true true "ArrowDown" t f filesABCD in
  selection s1 = ["B"; "C"] /\
  effects (maybeMoveSelection (mkParams true true "ArrowUp" t f filesABCD (selection s1)))
    = [SelRemove "C"] /\
  selection (keystroke s1 true true "ArrowUp" t f filesABCD) = ["B"].
Proof. vm_compute. repeat split. Qed.

(** C4. For an identifier occurring in the list, at its list position [i]
    (the first occurrence, as [findIndex] finds it), [getNextFile] is the
    item at [i+1] ([None], i.e. [undefined], past the end) and
    [getPreviousFile] is the item at [i-1] when [i > 0], else [None]. *)
Theorem C4_adjacent_lookups (fs : list AnyFile) (x : string) :
  In x (map id fs) ->
  exists i, findIndex (fun f => String.eqb (id f) x) fs = Z.of_nat i /\
    nth_error (map id fs) i = Some x /\
    (forall j, (j < i)%nat -> nth_error (map id fs) j <> Some x) /\
    getNextFile fs x = nth_error fs (S i) /\
    getPreviousFile fs x = match i with O => None | S k => nth_error fs k end.
Proof.
  intros Hin.
  destruct (findIndex_cases (fun f => String.eqb (id f) x) fs)
    as [[_ Hall] | (n & g & H1 & H2 & H3 & H4)].
  - apply in_map_iff in Hin as (g & Hg & Hg').
    specialize (Hall g Hg'). rewrite Hg, String.eqb_refl in Hall. discriminate.
  - apply String.eqb_eq in H3.
    exists n. split; [exact H1|]. split.
    { rewrite nth_error_map, H2. simpl. now rewrite H3. }
    split.
    { intros j Hj Hx. apply map_id_nth_error in Hx as (y & Hy & Hyx).
      specialize (H4 j y Hj Hy). rewrite Hyx, String.eqb_refl in H4. discriminate. }
    split.
    + unfold getNextFile. rewrite H1.
      replace (Z.of_nat n =? -1) with false by lia. cbn [negb andb].
      destruct (Z.ltb_spec (Z.of_nat n + 1) (Z.of_nat (length fs))).
      * replace (Z.of_nat n + 1) with (Z.of_nat (S n)) by lia.
        exact (at_index_nat fs (S n)).
      * symmetry. apply nth_error_None. simpl. lia.
    + unfold getPreviousFile. rewrite H1. destruct n as [|k].
      * reflexivity.
      * rewrite (proj2 (Z.ltb_lt _ _)) by lia.
        replace (Z.of_nat (S k) - 1) with (Z.of_nat k) by lia.
        exact (at_index_nat fs k).
Qed.

Lemma C4_adjacent_lookups_witness :
  In "B" (map id filesABCD) /\
  exists i, findIndex (fun f => String.eqb (id f) "B") filesABCD = Z.of_nat i /\
    nth_error (map id filesABCD) i = Some "B" /\
    (forall j, (j < i)%nat -> nth_error (map id filesABCD) j <> Some "B") /\
    getNextFile filesABCD "B" = nth_error filesABCD (S i) /\
    getPreviousFile filesABCD "B" = match i with O => None | S k => nth_error filesABCD k end.
Proof.
  split; [simpl; auto 6 |].
  apply (C4_adjacent_lookups filesABCD "B"). simpl; auto 6.
Defined.

(** C7. An empty [selectedFileIds] returns at once: no call is made, so
    the view (selection and focus) is unchanged. *)
Theorem C7_empty_selection_noop (am sk : bool) (k : string) (t : HTMLElement)
    (f : AnyFile) (fs : list AnyFile) (n : nat) :
  effects (maybeMoveSelection (mkParams am sk k t f fs [])) = [] /\
  keystroke (mkView [] n) am sk k t f fs = mkView [] n.
Proof. split; reflexivity. Qed.

(** C8. Any key other than [ArrowUp] and [ArrowDown] makes no call: the
    selection and the focused element are unchanged. *)
Theorem C8_other_keys_ignored (s : ViewState) (am sk : bool) (k : string)
    (t : HTMLElement) (f : AnyFile) (fs : list AnyFile) :
  k <> "ArrowUp" -> k <> "ArrowDown" ->
  effects (maybeMoveSelection (mkParams am sk k t f fs (selection s))) = [] /\
  keystroke s am sk k t f fs = s.
Proof.
  intros Hup Hdown.
  assert (E : effects (maybeMoveSelection (mkParams am sk k t f fs (selection s))) = []).
  { unfold maybeMoveSelection; simpl. destruct (selection s); [reflexivity|].
    apply String.eqb_neq in Hup, Hdown. rewrite Hup, Hdown. reflexivity. }
  split; [exact E|]. unfold keystroke. rewrite E. reflexivity.
Qed.

Lemma C8_other_keys_ignored_witness :
  ("Enter" <> "ArrowUp" /\ "Enter" <> "ArrowDown") /\
  effects (maybeMoveSelection (mkParams true true "Enter" elem1 fB filesABCD ["B"; "C"])) = [] /\
  keystroke (mkView ["B"; "C"] 1) true true "Enter" elem1 fB filesABCD = mkView ["B"; "C"] 1.
Proof.
  split; [split; discriminate|].
  apply (C8_other_keys_ignored (mkView ["B"; "C"] 1) true true "Enter" elem1 fB filesABCD);
    discriminate.
Defined.

(** C2. Extending ([shiftKey] and [allowMultiple]) with more than one
    identifier selected, against the current direction ([ArrowUp] while
    it is [down], [ArrowDown] while it is [up]): the first call made is
    [remove] of the last-selected identifier, and everything after it is
    an [add] attempt. *)
Theorem C2_reversal_removes_last_first (first : FileKey) (others : list FileKey)
    (k : string) (t : HTMLElement) (f : AnyFile) (fs : list AnyFile) :
  let sel := first :: others in
  let lastFileId := unstringifyFileKey (last sel first) in
  let d := initialDirection fs first (last sel first) in
  (1 < length sel)%nat ->
  (k = "ArrowUp" /\ d = Some Down) \/ (k = "ArrowDown" /\ d = Some Up) ->
  exists more,
    effects (maybeMoveSelection (mkParams true true k t f fs sel)) = SelRemove lastFileId :: more /\
    forall e, In e more -> exists fid, e = SelAdd fid.
Proof.
  cbv zeta. intros Hlen Hk.
  destruct others as [|o os]; [simpl in Hlen; lia|].
  rewrite maybeMoveSelection_cons.
  assert (Hadd : forall g e,
             In e (getAndAddFile (mkParams true true k t f fs (first :: o :: os)) g
                     (unstringifyFileKey (last (first :: o :: os) first))) ->
             exists fid, e = SelAdd fid).
  { intros g e. unfold getAndAddFile. simpl.
    destruct (g fs _) as [h|]; [case_if|]; simpl; intros Hin;
      try contradiction.
    destruct Hin as [<- | []]. eauto. }
  destruct Hk as [[-> Hd] | [-> Hd]];
    cbn -[initialDirection getAndAddFile last]; rewrite Hd; cbn -[getAndAddFile last];
    eexists; (split; [reflexivity | apply Hadd]).
Qed.

Lemma C2_reversal_removes_last_first_witness :
  let sel := ["B"; "C"] in
  (1 < length sel)%nat /\
  ("ArrowUp" = "ArrowUp" /\ initialDirection filesABCD "B" (last sel "B") = Some Down) /\
  exists more,
    effects (maybeMoveSelection (mkParams true true "ArrowUp" elem1 fB filesABCD sel))
      = SelRemove (unstringifyFileKey (last sel "B")) :: more /\
    forall e, In e more -> exists fid, e = SelAdd fid.
Proof.
  split; [simpl; lia|]. split; [split; reflexivity|].
  apply (C2_reversal_removes_last_first "B" ["C"] "ArrowUp" elem1 fB filesABCD).
  - simpl; lia.
  - left. split; reflexivity.
Defined.

(** C3. [ArrowDown] without the extend modifier, with more than one
    identifier selected, the last-selected one at list position [i]: the
    selection becomes exactly the file at position [i+1], or is left
    unchanged when the last-selected file is the last of the list. *)
Theorem C3_collapse_down (am : bool) (first : FileKey) (others : list FileKey)
    (t : HTMLElement) (f : AnyFile) (fs : list AnyFile) (n i : nat) :
  let sel := first :: others in
  let lastFileId := unstringifyFileKey (last sel first) in
  (1 < length sel)%nat ->
  findIndex (fun g => String.eqb (id g) lastFileId) fs = Z.of_nat i ->
  let s' := keystroke (mkView sel n) am false "ArrowDown" t f fs in
  (forall g, nth_error fs (S i) = Some g -> selection s' = [stringifyFileKey (id g)]) /\
  (S i = length fs -> selection s' = sel).
Proof.
  cbv zeta. intros Hlen Hi. unfold keystroke. cbn [selection].
  rewrite maybeMoveSelection_cons. cbv zeta.
  change (String.eqb "ArrowDown" "ArrowUp") with false.
  change (String.eqb "ArrowDown" "ArrowDown") with true. cbv iota.
  unfold moveArm. cbn [shiftKey allowMultiple andb selectedFileIds].
  rewrite (proj2 (Nat.ltb_lt _ _) Hlen).
  unfold getAndClearAndAddFile. cbn [files].
  rewrite (getNextFile_at _ _ _ Hi). cbn [effects].
  rewrite runEffects_app. split.
  - intros g Hg. rewrite Hg.
    destruct (nextElementSibling t); reflexivity.
  - intros Hend. rewrite (proj2 (nth_error_None fs (S i))) by lia.
    destruct (nextElementSibling t); reflexivity.
Qed.

Lemma C3_collapse_down_witness :
  let sel := ["A"; "B"] in
  (1 < length sel)%nat /\
  findIndex (fun g => String.eqb (id g) (unstringifyFileKey (last sel "A"))) filesABCD
    = Z.of_nat 1 /\
  let s' := keystroke (mkView sel 1) true false "ArrowDown" elem1 fB filesABCD in
  (forall g, nth_error filesABCD 2 = Some g -> selection s' = [stringifyFileKey (id g)]) /\
  (2%nat = length filesABCD -> selection s' = sel).
Proof.
  split; [simpl; lia|]. split; [reflexivity|].
  apply (C3_collapse_down true "A" ["B"] elem1 fB filesABCD 1 1); [simpl; lia | reflexivity].
Defined.

(** C5. The claim: a size-1 selection extended with [ArrowUp] always
    grows to size 2.  When the selected file is the first of the list
    there is no previous file and nothing is added. *)
Lemma C5_single_extend_up_counterexample :
  length (selection (keystroke (mkView ["A"] 0) true true "ArrowUp" elem0 fA filesABCD)) = 1%nat.
Proof. reflexivity. Qed.

(** C5 (amended). With exactly one identifier selected, [ArrowUp] with
    the extend modifier and [allowMultiple] sets the direction to [up];
    when the selected file is at list position [i+1], the file at
    position [i] is added and the selection has size 2; when it is at
    position 0 or not in the list, the selection is unchanged. *)
Theorem C5_single_extend_up (k0 : FileKey) (t : HTMLElement) (f : AnyFile)
    (fs : list AnyFile) (n : nat) :
  let r := maybeMoveSelection (mkParams true true "ArrowUp" t f fs [k0]) in
  let pos := findIndex (fun g => String.eqb (id g) (unstringifyFileKey k0)) fs in
  let s' := runEffects (mkView [k0] n) (effects r) in
  selectionDirection r = Some Up /\
  (forall i, pos = Z.of_nat (S i) ->
     exists g, nth_error fs i = Some g /\ selection s' = [k0; stringifyFileKey (id g)]) /\
  ((pos = 0 \/ pos = -1) -> selection s' = [k0]).
Proof.
  cbv zeta.
  assert (E : maybeMoveSelection (mkParams true true "ArrowUp" t f fs [k0]) =
              mkResult (getAndAddFile (mkParams true true "ArrowUp" t f fs [k0])
                          getPreviousFile (unstringifyFileKey k0)) (Some Up))
    by reflexivity.
  rewrite E. cbn [selectionDirection effects]. split; [reflexivity|].
  unfold getAndAddFile. cbn [files selectedFileIds].
  split.
  - intros i Hi. rewrite (getPreviousFile_at _ _ _ Hi).
    destruct (nth_error fs i) as [g|] eqn:Hg.
    + exists g. split; [reflexivity|].
      assert (Hne : id g <> unstringifyFileKey k0).
      { apply getPreviousFile_neq with fs. rewrite (getPreviousFile_at _ _ _ Hi). exact Hg. }
      unfold includes. simpl.
      destruct (String.eqb_spec (stringifyFileKey (id g)) k0) as [Heq|_];
        [exfalso; apply Hne; exact Heq | reflexivity].
    + exfalso. apply nth_error_None in Hg.
      destruct (findIndex_cases (fun g => String.eqb (id g) (unstringifyFileKey k0)) fs)
        as [[H1 _] | (m & h & H1 & H2 & _)]; [lia|].
      assert (m = S i) by lia. subst m.
      assert (nth_error fs (S i) <> None) by congruence.
      apply H. apply nth_error_None. lia.
  - intros Hpos.
    assert (getPreviousFile fs (unstringifyFileKey k0) = None) as ->
      by (unfold getPreviousFile; destruct Hpos as [-> | ->]; reflexivity).
    reflexivity.
Qed.

(** C6. Extending with the modifier held: with [allowMultiple], every
    [add] made is of a file whose key is not in [selectedFileIds]; and in
    every case a duplicate-free selection stays duplicate-free. *)
Theorem C6_extend_no_duplicates (am : bool) (k : string) (t : HTMLElement)
    (f : AnyFile) (fs : list AnyFile) (s : ViewState) :
  NoDup (selection s) ->
  let effs := effects (maybeMoveSelection (mkParams am true k t f fs (selection s))) in
  (am = true -> forall fid, In (SelAdd fid) effs -> ~ In (stringifyFileKey fid) (selection s)) /\
  NoDup (selection (keystroke s am true k t f fs)).
Proof.
  intros Hnd. cbv zeta. unfold keystroke.
  destruct s as [sel n]; cbn [selection] in *.
  destruct sel as [|first others];
    [split; [intros _ fid H; simpl in H; contradiction | exact Hnd]|].
  destruct (maybeMoveSelection_shape am true k t f fs first others)
    as [E | [[Hsa (pre & post & E & Hpre & Hpost)] | [Hsa (o & post & E & Hpost)]]];
    rewrite E.
  - split; [intros _ fid H; simpl in H; contradiction | exact Hnd].
  - assert (Hpost' : post = [] \/ exists x, post = [SelAdd x] /\
                     ~ In (stringifyFileKey x) (first :: others)).
    { destruct Hpost as [-> | (g & _ & -> & Hi)]; [now left|].
      right. exists (id g). split; [reflexivity|]. apply includes_false, Hi. }
    clear Hpost. split.
    + intros _ fid Hin. apply in_app_iff in Hin as [Hin | Hin].
      * destruct Hpre as [-> | (-> & _)]; simpl in Hin;
          [contradiction | destruct Hin as [H | []]; discriminate].
      * destruct Hpost' as [-> | (x & -> & Hx)]; [simpl in Hin; contradiction|].
        destruct Hin as [H | []]. injection H as ->. exact Hx.
    + rewrite runEffects_app.
      assert (Hpre' : NoDup (selection (runEffects (mkView (first :: others) n) pre)) /\
                      incl (selection (runEffects (mkView (first :: others) n) pre))
                           (first :: others)).
      { destruct Hpre as [-> | (-> & _)]; unfold runEffects; cbn [fold_left applyEffect selection].
        - split; [exact Hnd | apply incl_refl].
        - split; [apply NoDup_filter, Hnd|].
          intros x Hx. apply filter_In in Hx. apply Hx. }
      destruct Hpre' as [Hnd' Hincl].
      destruct Hpost' as [-> | (x & -> & Hx)]; [exact Hnd'|].
      apply NoDup_snoc; [exact Hnd'|]. intros Hin. apply Hx, Hincl, Hin.
  - destruct am; [discriminate|]. split; [intros H; discriminate H|].
    rewrite runEffects_app.
    destruct Hpost as [-> | (g & _ & ->)].
    + rewrite selection_runEffects_app_nil, selection_runEffects_focus. exact Hnd.
    + simpl. constructor; [intros []|constructor].
Qed.

Lemma C6_extend_no_duplicates_witness :
  NoDup (selection (mkView ["B"; "C"] 1)) /\
  let effs := effects (maybeMoveSelection
                (mkParams true true "ArrowDown" elem1 fB filesABCD ["B"; "C"])) in
  (true = true -> forall fid, In (SelAdd fid) effs -> ~ In (stringifyFileKey fid) ["B"; "C"]) /\
  NoDup (selection (keystroke (mkView ["B"; "C"] 1) true true "ArrowDown" elem1 fB filesABCD)).
Proof.
  assert (H : NoDup (selection (mkView ["B"; "C"] 1))).
  { simpl. constructor; [simpl; intros [H | []]; discriminate | constructor; [intros [] | constructor]]. }
  split; [exact H|].
  exact (C6_extend_no_duplicates true "ArrowDown" elem1 fB filesABCD (mkView ["B"; "C"] 1) H).
Defined.

(** C9. From a non-empty selection the selection is never left empty;
    [clear] is only called right before the final [add] of a file next to
    (or previous to) some file of the list, and [remove] only with more
    than one identifier selected. *)
Theorem C9_selection_never_emptied (am sk : bool) (k : string) (t : HTMLElement)
    (f : AnyFile) (fs : list AnyFile) (s : ViewState) :
  selection s <> [] ->
  let effs := effects (maybeMoveSelection (mkParams am sk k t f fs (selection s))) in
  selection (runEffects s effs) <> [] /\
  (forall pre post, effs = (pre ++ SelClear :: post)%list ->
     exists x g, adjacent fs x g /\ post = [SelAdd (id g)]) /\
  (forall fid, In (SelRemove fid) effs -> (1 < length (selection s))%nat).
Proof.
  intros Hne. cbv zeta.
  destruct s as [sel n]; cbn [selection] in *.
  destruct sel as [|first others]; [contradiction|].
  assert (Hfoc : forall o, ~ In SelClear (focusSibling o) /\
                           forall fid, ~ In (SelRemove fid) (focusSibling o)).
  { intros [e|]; (split; [| intros fid]); simpl; intuition congruence. }
  destruct (maybeMoveSelection_shape am sk k t f fs first others)
    as [E | [[Hsa (pre & post & E & Hpre & Hpost)] | [Hsa (o & post & E & Hpost)]]];
    rewrite E.
  - split; [exact Hne|]. split.
    + intros pre post H. destruct pre; discriminate H.
    + intros fid [].
  - assert (HnoClear : ~ In SelClear (pre ++ post)%list).
    { intros Hin. apply in_app_iff in Hin as [Hin | Hin].
      - destruct Hpre as [-> | (-> & _)]; simpl in Hin;
          [contradiction | destruct Hin as [H | []]; discriminate].
      - destruct Hpost as [-> | (g & _ & -> & _)]; simpl in Hin;
          [contradiction | destruct Hin as [H | []]; discriminate]. }
    split; [|split].
    + destruct Hpost as [-> | (g & _ & -> & _)]; [|apply runEffects_add_nonempty].
      rewrite app_nil_r.
      destruct Hpre as [-> | (-> & _ & Hfirst)]; [exact Hne|].
      unfold runEffects; cbn [fold_left applyEffect selection filter].
      unfold stringifyFileKey.
      destruct (String.eqb_spec first (unstringifyFileKey (last (first :: others) first)))
        as [Heq | _]; [contradiction | discriminate].
    + intros pre' post' H. exfalso. apply HnoClear. rewrite H.
      apply in_or_app. right. left. reflexivity.
    + intros fid Hin. apply in_app_iff in Hin as [Hin | Hin].
      * destruct Hpre as [-> | (-> & Hlen & _)]; [destruct Hin | exact Hlen].
      * destruct Hpost as [-> | (g & _ & -> & _)]; [destruct Hin|].
        destruct Hin as [H | []]; discriminate.
  - destruct (Hfoc o) as [Hc Hr].
    destruct Hpost as [-> | (g & Hg & ->)].
    + rewrite app_nil_r. split; [|split].
      * rewrite selection_runEffects_focus. exact Hne.
      * intros pre post H. exfalso. apply Hc. rewrite H.
        apply in_or_app. right. left. reflexivity.
      * intros fid Hin. exfalso. exact (Hr fid Hin).
    + split; [|split].
      * change [SelClear; SelAdd (id g)] with ([SelClear] ++ [SelAdd (id g)])%list.
        rewrite app_assoc. apply runEffects_add_nonempty.
      * intros pre post H.
        apply clear_position in H; [| exact Hc | intros [H' | []]; discriminate].
        subst post. eauto.
      * intros fid Hin. exfalso. apply in_app_iff in Hin as [Hin | Hin].
        -- exact (Hr fid Hin).
        -- destruct Hin as [H | [H | []]]; discriminate.
Qed.

Lemma C9_selection_never_emptied_witness :
  selection (mkView ["A"] 0) <> [] /\
  let effs := effects (maybeMoveSelection
                (mkParams true false "ArrowUp" elem0 fA filesABCD ["A"])) in
  selection (runEffects (mkView ["A"] 0) effs) <> [] /\
  (forall pre post, effs = (pre ++ SelClear :: post)%list ->
     exists x g, adjacent filesABCD x g /\ post = [SelAdd (id g)]) /\
  (forall fid, In (SelRemove fid) effs -> (1 < length ["A"])%nat).
Proof.
  assert (H : selection (mkView ["A"] 0) <> []) by discriminate.
  split; [exact H|].
  exact (C9_selection_never_emptied true false "ArrowUp" elem0 fA filesABCD (mkView ["A"] 0) H).
Defined.

(** C10. The claim: a call whose last-selected identifier is absent
    from the list adds nothing.  With one identifier selected and no
    extension, the adjacent file is taken relative to the focused file,
    so an [add] still happens: [Z] is stale, [A] is focused, [B] is
    added. *)
Lemma C10_stale_last_counterexample :
  ~ In "Z" (map id filesABCD) /\
  effects (maybeMoveSelection (mkParams true false "ArrowDown" elem0 fA filesABCD ["Z"]))
    = [FocusElem 1; SelClear; SelAdd "B"].
Proof.
  split; [|reflexivity].
  simpl. intros H. repeat destruct H as [H | H]; try discriminate H. exact H.
Qed.

(** C10 (amended). For an identifier absent from the list both lookups
    give [None] ([undefined]); a call whose last-selected identifier is
    absent adds nothing when it extends the range ([shiftKey] and
    [allowMultiple]) or when more than one identifier is selected.  With
    a single selected identifier and no extension the adjacent file of
    the focused file is used instead. *)
Theorem C10_stale_last_selected (fs : list AnyFile) (x : string) :
  ~ In x (map id fs) ->
  getNextFile fs x = None /\ getPreviousFile fs x = None /\
  forall am sk k t f first others,
    unstringifyFileKey (last (first :: others) first) = x ->
    (sk && am = true \/ (1 < length (first :: others))%nat) ->
    forall fid, ~ In (SelAdd fid)
                     (effects (maybeMoveSelection (mkParams am sk k t f fs (first :: others)))).
Proof.
  intros Hx. destruct (adjacent_absent fs x Hx) as [Hn Hp].
  split; [exact Hn|]. split; [exact Hp|].
  intros am sk k t f first others Hlast Hcase fid Hin.
  assert (Hno : forall g, ~ adjacent fs x g) by (intros g [H | H]; congruence).
  destruct (maybeMoveSelection_shape am sk k t f fs first others)
    as [E | [[Hsa (pre & post & E & Hpre & Hpost)] | [Hsa (o & post & E & Hpost)]]];
    rewrite E in Hin.
  - exact Hin.
  - apply in_app_iff in Hin as [Hin | Hin].
    + destruct Hpre as [-> | (-> & _)]; simpl in Hin;
        [contradiction | destruct Hin as [H | []]; discriminate].
    + destruct Hpost as [-> | (g & Hg & -> & _)]; [exact Hin|].
      rewrite Hlast in Hg. exact (Hno g Hg).
  - apply in_app_iff in Hin as [Hin | Hin].
    + destruct o; simpl in Hin; [destruct Hin as [H | []]; discriminate | exact Hin].
    + destruct Hpost as [-> | (g & Hg & ->)]; [exact Hin|].
      destruct Hcase as [Hc | Hlen]; [congruence|].
      rewrite (proj2 (Nat.ltb_lt _ _) Hlen), Hlast in Hg. exact (Hno g Hg).
Qed.

Lemma C10_stale_last_selected_witness :
  ~ In "Z" (map id filesABCD) /\
  getNextFile filesABCD "Z" = None /\ getPreviousFile filesABCD "Z" = None /\
  forall am sk k t f first others,
    unstringifyFileKey (last (first :: others) first) = "Z" ->
    (sk && am = true \/ (1 < length (first :: others))%nat) ->
    forall fid, ~ In (SelAdd fid)
                     (effects (maybeMoveSelection (mkParams am sk k t f filesABCD (first :: others)))).
Proof.
  assert (H : ~ In "Z" (map id filesABCD)).
  { simpl. intros H. repeat destruct H as [H | H]; try discriminate H. exact H. }
  split; [exact H|].
  exact (C10_stale_last_selected filesABCD "Z" H).
Defined.

(** ** Further properties of selection.ts *)

Lemma at_index_In {A} (xs : list A) (i : Z) (x : A) :
  at_index xs i = Some x -> In x xs.
Proof.
  unfold at_index. destruct (0 <=? i); [|discriminate].
  apply nth_error_In.
Qed.

(** With unique identifiers, the position [findIndex] finds for a file's
    identifier is the file's own position. *)
Lemma findIndex_nodup (fs : list AnyFile) (j : nat) (g : AnyFile) :
  NoDup (map id fs) -> nth_error fs j = Some g ->
  findIndex (fun f => String.eqb (id f) (id g)) fs = Z.of_nat j.
Proof.
  intros Hnd Hj.
  destruct (findIndex_cases (fun f => String.eqb (id f) (id g)) fs)
    as [[_ Hall] | (m & h & H1 & H2 & H3 & _)].
  - specialize (Hall g (nth_error_In _ _ Hj)). rewrite String.eqb_refl in Hall.
    discriminate.
  - apply String.eqb_eq in H3. rewrite H1. f_equal.
    apply (proj1 (NoDup_nth_error (map id fs)) Hnd).
    + rewrite length_map. apply nth_error_Some. congruence.
    + rewrite !nth_error_map, H2, Hj. simpl. now rewrite H3.
Qed.

(** X1. The lookups only return files of the list, and the previous file
    never carries the identifier it was looked up from. *)
Theorem X1_lookups_in_list (fs : list AnyFile) (x : string) :
  (forall g, getNextFile fs x = Some g -> In g fs) /\
  (forall g, getPreviousFile fs x = Some g -> In g fs /\ id g <> x).
Proof.
  split; intros g Hg.
  - unfold getNextFile in Hg. destruct (_ && _); [|discriminate].
    eapply at_index_In; exact Hg.
  - split; [|exact (getPreviousFile_neq fs x g Hg)].
    unfold getPreviousFile in Hg. destruct (0 <? _); [|discriminate].
    eapply at_index_In; exact Hg.
Qed.

(** X2. With unique identifiers the two lookups undo each other: the
    file previous to the next file of [x] is [x]'s file, and the file
    next to the previous file of [x] is [x]'s file. *)
Theorem X2_next_previous_roundtrip (fs : list AnyFile) (x : string) :
  NoDup (map id fs) ->
  (forall g, getNextFile fs x = Some g ->
     exists h, getPreviousFile fs (id g) = Some h /\ id h = x) /\
  (forall g, getPreviousFile fs x = Some g ->
     exists h, getNextFile fs (id g) = Some h /\ id h = x).
Proof.
  intros Hnd.
  destruct (findIndex_cases (fun f => String.eqb (id f) x) fs)
    as [[H1 _] | (n & a & H1 & H2 & H3 & _)].
  - split; intros g Hg.
    + unfold getNextFile in Hg. rewrite H1 in Hg. discriminate.
    + unfold getPreviousFile in Hg. rewrite H1 in Hg. discriminate.
  - apply String.eqb_eq in H3. split; intros g Hg.
    + rewrite (getNextFile_at _ _ _ H1) in Hg.
      rewrite (getPreviousFile_at _ _ _ (findIndex_nodup fs (S n) g Hnd Hg)).
      exists a. auto.
    + rewrite (getPreviousFile_at _ _ _ H1) in Hg. destruct n as [|k]; [discriminate|].
      rewrite (getNextFile_at _ _ _ (findIndex_nodup fs k g Hnd Hg)).
      exists a. auto.
Qed.

Lemma X2_next_previous_roundtrip_witness :
  NoDup (map id filesABCD) /\
  (forall g, getNextFile filesABCD "B" = Some g ->
     exists h, getPreviousFile filesABCD (id g) = Some h /\ id h = "B") /\
  (forall g, getPreviousFile filesABCD "B" = Some g ->
     exists h, getNextFile filesABCD (id g) = Some h /\ id h = "B").
Proof.
  assert (H : NoDup (map id filesABCD)).
  { simpl. repeat constructor; simpl; intuition discriminate. }
  split; [exact H|]. exact (X2_next_previous_roundtrip filesABCD "B" H).
Defined.

(** X3. Without [allowMultiple] the extend modifier is ignored: the call
    with [shiftKey] behaves as the one without. *)
Theorem X3_shift_ignored_without_allowMultiple (k : string) (t : HTMLElement)
    (f : AnyFile) (fs : list AnyFile) (sel : list FileKey) :
  maybeMoveSelection (mkParams false true k t f fs sel) =
  maybeMoveSelection (mkParams false false k t f fs sel).
Proof. destruct sel; reflexivity. Qed.

Lemma focused_runEffects_nofocus (s : ViewState) (es : list Effect) :
  (forall e, ~ In (FocusElem e) es) -> focused (runEffects s es) = focused s.
Proof.
  revert s. induction es as [|a r IH]; intros s H; [reflexivity|].
  unfold runEffects. simpl. fold (runEffects (applyEffect s a) r).
  rewrite IH by (intros e He; apply (H e); right; exact He).
  destruct a; try reflexivity.
  exfalso. apply (H e). left. reflexivity.
Qed.

Lemma getAndAddFile_nofocus (p0 : MoveSelectionParams)
    (g : list AnyFile -> string -> option AnyFile) (x : string) (e : nat) :
  ~ In (FocusElem e) (getAndAddFile p0 g x).
Proof.
  unfold getAndAddFile. destruct (g _ x); [case_if|]; simpl; intuition discriminate.
Qed.

Lemma getAndClearAndAddFile_nofocus (p0 : MoveSelectionParams)
    (g : list AnyFile -> string -> option AnyFile) (x : string) (e : nat) :
  ~ In (FocusElem e) (getAndClearAndAddFile p0 g x).
Proof.
  unfold getAndClearAndAddFile. destruct (g _ x); simpl; intuition discriminate.
Qed.

Lemma moveArm_focused (s : ViewState) (p0 : MoveSelectionParams)
    (g : list AnyFile -> string -> option AnyFile) (tw op : Direction)
    (sib : option nat) (x : string) (d : option Direction) :
  focused (runEffects s (effects (moveArm p0 g tw op sib x d))) =
  if shiftKey p0 && allowMultiple p0 then focused s
  else match sib with Some e => e | None => focused s end.
Proof.
  unfold moveArm. destruct (shiftKey p0 && allowMultiple p0).
  - repeat case_if; cbn [effects]; apply focused_runEffects_nofocus; intros e He;
      try (destruct He as [He | He]; [discriminate|]);
      exact (getAndAddFile_nofocus _ _ _ _ He).
  - cbn [effects]. rewrite runEffects_app.
    rewrite focused_runEffects_nofocus
      by (intros e; case_if; apply getAndClearAndAddFile_nofocus).
    destruct sib; reflexivity.
Qed.

(** X4. Focus: from a non-empty selection, an arrow key with the extend
    modifier (and [allowMultiple]) leaves the focused element as it is;
    without it, focus moves to the previous sibling element for [ArrowUp]
    and the next one for [ArrowDown], and stays when there is none. *)
Theorem X4_focus_moves_only_without_extend (s : ViewState) (am sk : bool)
    (t : HTMLElement) (f : AnyFile) (fs : list AnyFile) :
  selection s <> [] ->
  focused (keystroke s am sk "ArrowUp" t f fs) =
    (if sk && am then focused s
     else match previousElementSibling t with Some e => e | None => focused s end) /\
  focused (keystroke s am sk "ArrowDown" t f fs) =
    (if sk && am then focused s
     else match nextElementSibling t with Some e => e | None => focused s end).
Proof.
  intros Hne. unfold keystroke.
  destruct s as [sel n]; cbn [selection focused] in *.
  destruct sel as [|first others]; [contradiction|].
  rewrite !maybeMoveSelection_cons. cbv zeta.
  change (String.eqb "ArrowUp" "ArrowUp") with true.
  change (String.eqb "ArrowDown" "ArrowUp") with false.
  change (String.eqb "ArrowDown" "ArrowDown") with true. cbv iota.
  split; apply (moveArm_focused (mkView (first :: others) n)).
Qed.

Lemma X4_focus_moves_only_without_extend_witness :
  selection (mkView ["B"] 1) <> [] /\
  focused (keystroke (mkView ["B"] 1) true false "ArrowUp" elem1 fB filesABCD) =
    (if false && true then focused (mkView ["B"] 1)
     else match previousElementSibling elem1 with
          | Some e => e | None => focused (mkView ["B"] 1) end) /\
  focused (keystroke (mkView ["B"] 1) true false "ArrowDown" elem1 fB filesABCD) =
    (if false && true then focused (mkView ["B"] 1)
     else match nextElementSibling elem1 with
          | Some e => e | None => focused (mkView ["B"] 1) end).
Proof.
  assert (H : selection (mkView ["B"] 1) <> []) by discriminate.
  split; [exact H|].
  exact (X4_focus_moves_only_without_extend (mkView ["B"] 1) true false elem1 fB filesABCD H).
Defined.

(** X5. Without extension ([shiftKey && allowMultiple] false) the call
    either leaves the selection as it is or replaces it by exactly one
    key, that of a file adjacent to some file of the list. *)
Theorem X5_reset_single_or_unchanged (s : ViewState) (am sk : bool) (k : string)
    (t : HTMLElement) (f : AnyFile) (fs : list AnyFile) :
  sk && am = false ->
  selection (keystroke s am sk k t f fs) = selection s \/
  exists x g, adjacent fs x g /\
    selection (keystroke s am sk k t f fs) = [stringifyFileKey (id g)].
Proof.
  intros Hsa. unfold keystroke.
  destruct s as [sel n]; cbn [selection].
  destruct sel as [|first others]; [left; reflexivity|].
  destruct (maybeMoveSelection_shape am sk k t f fs first others)
    as [E | [[Hsa' _] | [_ (o & post & E & Hpost)]]]; [| congruence |];
    rewrite E.
  - left. reflexivity.
  - rewrite runEffects_app. destruct Hpost as [-> | (g & Hg & ->)].
    + left. rewrite selection_runEffects_app_nil. apply selection_runEffects_focus.
    + right. eexists. exists g. split; [exact Hg|].
      destruct o; reflexivity.
Qed.

Lemma X5_reset_single_or_unchanged_witness :
  false && true = false /\
  (selection (keystroke (mkView ["A"; "B"; "C"] 2) true false "ArrowUp" elem1 fC filesABCD)
     = selection (mkView ["A"; "B"; "C"] 2) \/
   exists x g, adjacent filesABCD x g /\
     selection (keystroke (mkView ["A"; "B"; "C"] 2) true false "ArrowUp" elem1 fC filesABCD)
       = [stringifyFileKey (id g)]).
Proof.
  split; [reflexivity|].
  apply (X5_reset_single_or_unchanged (mkView ["A"; "B"; "C"] 2) true false "ArrowUp"
           elem1 fC filesABCD). reflexivity.
Defined.

(** X6. [ArrowUp] without the extend modifier, with more than one
    identifier selected, the last-selected one at list position [i]: the
    selection becomes exactly the file at position [i-1], or is left
    unchanged when the last-selected file is the first of the list. *)
Theorem X6_collapse_up (am : bool) (first : FileKey) (others : list FileKey)
    (t : HTMLElement) (f : AnyFile) (fs : list AnyFile) (n i : nat) :
  let sel := first :: others in
  let lastFileId := unstringifyFileKey (last sel first) in
  (1 < length sel)%nat ->
  findIndex (fun g => String.eqb (id g) lastFileId) fs = Z.of_nat i ->
  let s' := keystroke (mkView sel n) am false "ArrowUp" t f fs in
  (forall j g, i = S j -> nth_error fs j = Some g -> selection s' = [stringifyFileKey (id g)]) /\
  (i = O -> selection s' = sel).
Proof.
  cbv zeta. intros Hlen Hi. unfold keystroke. cbn [selection].
  rewrite maybeMoveSelection_cons. cbv zeta.
  change (String.eqb "ArrowUp" "ArrowUp") with true. cbv iota.
  unfold moveArm. cbn [shiftKey allowMultiple andb selectedFileIds].
  rewrite (proj2 (Nat.ltb_lt _ _) Hlen).
  unfold getAndClearAndAddFile. cbn [files].
  rewrite (getPreviousFile_at _ _ _ Hi). cbn [effects].
  rewrite runEffects_app. split.
  - intros j g -> Hg. rewrite Hg.
    destruct (previousElementSibling t); reflexivity.
  - intros ->. destruct (previousElementSibling t); reflexivity.
Qed.

Lemma X6_collapse_up_witness :
  let sel := ["A"; "C"] in
  (1 < length sel)%nat /\
  findIndex (fun g => String.eqb (id g) (unstringifyFileKey (last sel "A"))) filesABCD
    = Z.of_nat 2 /\
  let s' := keystroke (mkView sel 1) true false "ArrowUp" elem1 fB filesABCD in
  (forall j g, 2%nat = S j -> nth_error filesABCD j = Some g ->
     selection s' = [stringifyFileKey (id g)]) /\
  (2%nat = O -> selection s' = sel).
Proof.
  split; [simpl; lia|]. split; [reflexivity|].
  apply (X6_collapse_up true "A" ["C"] elem1 fB filesABCD 1 2); [simpl; lia | reflexivity].
Defined.

(** X7. Without the extend modifier and with exactly one identifier
    selected, the new selection is taken from the focused file [f], not
    from the selected key: with [f] at list position [i], [ArrowDown]
    selects the file at [i+1] and [ArrowUp] the file at [i-1], and the
    selection stays when that position is outside the list. *)
Theorem X7_single_reset_from_focused_file (am : bool) (k0 : FileKey)
    (t : HTMLElement) (f : AnyFile) (fs : list AnyFile) (n i : nat) :
  findIndex (fun g => String.eqb (id g) (id f)) fs = Z.of_nat i ->
  let down := selection (keystroke (mkView [k0] n) am false "ArrowDown" t f fs) in
  let up := selection (keystroke (mkView [k0] n) am false "ArrowUp" t f fs) in
  down = match nth_error fs (S i) with
         | Some g => [stringifyFileKey (id g)] | None => [k0] end /\
  up = match i with
       | O => [k0]
       | S j => match nth_error fs j with
                | Some g => [stringifyFileKey (id g)] | None => [k0] end
       end.
Proof.
  intros Hi. cbv zeta. unfold keystroke. cbn [selection].
  rewrite !maybeMoveSelection_cons. cbv zeta.
  change (String.eqb "ArrowUp" "ArrowUp") with true.
  change (String.eqb "ArrowDown" "ArrowUp") with false.
  change (String.eqb "ArrowDown" "ArrowDown") with true. cbv iota.
  unfold moveArm. cbn [shiftKey allowMultiple andb selectedFileIds length Nat.ltb Nat.leb].
  unfold getAndClearAndAddFile. cbn [files file].
  rewrite (getNextFile_at _ _ _ Hi), (getPreviousFile_at _ _ _ Hi). cbn [effects].
  rewrite !runEffects_app. split.
  - destruct (nth_error fs (S i));
      destruct (nextElementSibling t); reflexivity.
  - destruct i as [|j]; [|destruct (nth_error fs j)];
      destruct (previousElementSibling t); reflexivity.
Qed.

Lemma X7_single_reset_from_focused_file_witness :
  findIndex (fun g => String.eqb (id g) (id fB)) filesABCD = Z.of_nat 1 /\
  selection (keystroke (mkView ["D"] 1) true false "ArrowDown" elem1 fB filesABCD) =
    match nth_error filesABCD 2 with
    | Some g => [stringifyFileKey (id g)] | None => ["D"] end /\
  selection (keystroke (mkView ["D"] 1) true false "ArrowUp" elem1 fB filesABCD) =
    match 1%nat with
    | O => ["D"]
    | S j => match nth_error filesABCD j with
             | Some g => [stringifyFileKey (id g)] | None => ["D"] end
    end.
Proof.
  split; [reflexivity|].
  exact (X7_single_reset_from_focused_file true "D" elem1 fB filesABCD 1 1 eq_refl).
Defined.

Lemma ids_distinct (fs : list AnyFile) (i j : nat) (a b : AnyFile) :
  NoDup (map id fs) -> nth_error fs i = Some a -> nth_error fs j = Some b ->
  i <> j -> id a <> id b.
Proof.
  intros Hnd Ha Hb Hij E. apply Hij.
  apply (proj1 (NoDup_nth_error (map id fs)) Hnd).
  - rewrite length_map. apply nth_error_Some. congruence.
  - rewrite !nth_error_map, Ha, Hb. simpl. now rewrite E.
Qed.

(** Unfold one keystroke with both modifiers on a concrete key. *)
Ltac unfold_extend_step :=
  unfold keystroke; cbn [selection focused];
  rewrite maybeMoveSelection_cons; cbv zeta;
  try change (String.eqb "ArrowUp" "ArrowUp") with true;
  try change (String.eqb "ArrowDown" "ArrowUp") with false;
  try change (String.eqb "ArrowDown" "ArrowDown") with true;
  cbv iota;
  unfold moveArm, getAndAddFile, initialDirection;
  cbn [shiftKey allowMultiple andb selectedFileIds files length Nat.eqb last];
  unfold unstringifyFileKey, stringifyFileKey.

Section ExtendSteps.

Variables (fs : list AnyFile) (a b : AnyFile) (i n : nat) (t : HTMLElement) (f : AnyFile).
Hypothesis Hnd : NoDup (map id fs).
Hypothesis Ha : nth_error fs i = Some a.
Hypothesis Hb : nth_error fs (S i) = Some b.

Let Hab : id a <> id b := ids_distinct fs i (S i) a b Hnd Ha Hb (n_Sn i).
Let Hia := findIndex_nodup fs i a Hnd Ha.
Let Hib := findIndex_nodup fs (S i) b Hnd Hb.

Lemma extend_down_single :
  keystroke (mkView [id a] n) true true "ArrowDown" t f fs = mkView [id a; id b] n.
Proof.
  unfold_extend_step. rewrite (getNextFile_at _ _ _ Hia), Hb.
  unfold includes. cbn [existsb].
  rewrite (proj2 (String.eqb_neq _ _) (not_eq_sym Hab)). reflexivity.
Qed.

Lemma extend_up_single :
  keystroke (mkView [id b] n) true true "ArrowUp" t f fs = mkView [id b; id a] n.
Proof.
  unfold_extend_step. rewrite (getPreviousFile_at _ _ _ Hib), Ha.
  unfold includes. cbn [existsb].
  rewrite (proj2 (String.eqb_neq _ _) Hab). reflexivity.
Qed.

Lemma extend_up_after_down :
  keystroke (mkView [id a; id b] n) true true "ArrowUp" t f fs = mkView [id a] n.
Proof.
  unfold_extend_step. rewrite Hia, Hib.
  unfold getSelectionDirection. rewrite (proj2 (Z.ltb_lt _ _)) by lia. cbn [dir_is direction_eqb].
  rewrite (getPreviousFile_at _ _ _ Hib), Ha.
  unfold includes. cbn [existsb]. rewrite String.eqb_refl. cbn [orb effects].
  unfold runEffects. cbn [fold_left applyEffect selection focused filter].
  unfold stringifyFileKey.
  rewrite (proj2 (String.eqb_neq _ _) Hab), String.eqb_refl. reflexivity.
Qed.

Lemma extend_down_after_up :
  keystroke (mkView [id b; id a] n) true true "ArrowDown" t f fs = mkView [id b] n.
Proof.
  unfold_extend_step. rewrite Hia, Hib.
  unfold getSelectionDirection.
  rewrite (proj2 (Z.ltb_ge _ _)) by lia. rewrite (proj2 (Z.ltb_lt _ _)) by lia.
  cbn [dir_is direction_eqb].
  rewrite (getNextFile_at _ _ _ Hia), Hb.
  unfold includes. cbn [existsb]. rewrite String.eqb_refl. cbn [orb effects].
  unfold runEffects. cbn [fold_left applyEffect selection focused filter].
  unfold stringifyFileKey.
  rewrite (proj2 (String.eqb_neq _ _) (not_eq_sym Hab)), String.eqb_refl. reflexivity.
Qed.

Lemma extend_down_after_down (c : AnyFile) :
  nth_error fs (S (S i)) = Some c ->
  keystroke (mkView [id a; id b] n) true true "ArrowDown" t f fs = mkView [id a; id b; id c] n.
Proof.
  intros Hc.
  assert (Hac : id a <> id c) by (apply (ids_distinct fs i (S (S i)) a c Hnd Ha Hc); lia).
  assert (Hbc : id b <> id c) by (apply (ids_distinct fs (S i) (S (S i)) b c Hnd Hb Hc); lia).
  unfold_extend_step. rewrite Hia, Hib.
  unfold getSelectionDirection. rewrite (proj2 (Z.ltb_lt _ _)) by lia. cbn [dir_is direction_eqb].
  rewrite (getNextFile_at _ _ _ Hib), Hc.
  unfold includes. cbn [existsb].
  rewrite (proj2 (String.eqb_neq _ _) (not_eq_sym Hac)),
          (proj2 (String.eqb_neq _ _) (not_eq_sym Hbc)).
  reflexivity.
Qed.

End ExtendSteps.

(** X8. With unique identifiers, for adjacent files [a] (position [i])
    and [b] (position [i+1]): extending [a] down selects [a;b] and
    extending back up restores [a]; extending [b] up selects [b;a] and
    extending back down restores [b].  Focus does not move. *)
Theorem X8_extend_then_reverse_restores (fs : list AnyFile) (a b : AnyFile)
    (i n : nat) (t : HTMLElement) (f : AnyFile) :
  NoDup (map id fs) -> nth_error fs i = Some a -> nth_error fs (S i) = Some b ->
  let ka := stringifyFileKey (id a) in
  let kb := stringifyFileKey (id b) in
  let down := keystroke (mkView [ka] n) true true "ArrowDown" t f fs in
  let up := keystroke (mkView [kb] n) true true "ArrowUp" t f fs in
  down = mkView [ka; kb] n /\ keystroke down true true "ArrowUp" t f fs = mkView [ka] n /\
  up = mkView [kb; ka] n /\ keystroke up true true "ArrowDown" t f fs = mkView [kb] n.
Proof.
  intros Hnd Ha Hb. cbv zeta. unfold stringifyFileKey, FileKey.
  rewrite (extend_down_single fs a b i n t f Hnd Ha Hb),
          (extend_up_single fs a b i n t f Hnd Ha Hb).
  split; [reflexivity|]. split; [exact (extend_up_after_down fs a b i n t f Hnd Ha Hb)|].
  split; [reflexivity|]. exact (extend_down_after_up fs a b i n t f Hnd Ha Hb).
Qed.

Lemma X8_extend_then_reverse_restores_witness :
  NoDup (map id filesABCD) /\ nth_error filesABCD 1 = Some fB /\
  nth_error filesABCD 2 = Some fC /\
  let down := keystroke (mkView ["B"] 1) true true "ArrowDown" elem1 fB filesABCD in
  let up := keystroke (mkView ["C"] 1) true true "ArrowUp" elem1 fB filesABCD in
  down = mkView ["B"; "C"] 1 /\ keystroke down true true "ArrowUp" elem1 fB filesABCD = mkView ["B"] 1 /\
  up = mkView ["C"; "B"] 1 /\ keystroke up true true "ArrowDown" elem1 fB filesABCD = mkView ["C"] 1.
Proof.
  assert (H : NoDup (map id filesABCD)).
  { simpl. repeat constructor; simpl; intuition discriminate. }
  split; [exact H|]. split; [reflexivity|]. split; [reflexivity|].
  exact (X8_extend_then_reverse_restores filesABCD fB fC 1 1 elem1 fB H eq_refl eq_refl).
Defined.

(** X9. With unique identifiers, extending twice in the same direction
    from the file at position [i] selects the files at [i], [i+1] and
    [i+2], in that order. *)
Theorem X9_extend_twice_down (fs : list AnyFile) (a b c : AnyFile)
    (i n : nat) (t : HTMLElement) (f : AnyFile) :
  NoDup (map id fs) -> nth_error fs i = Some a -> nth_error fs (S i) = Some b ->
  nth_error fs (S (S i)) = Some c ->
  keystroke (keystroke (mkView [stringifyFileKey (id a)] n) true true "ArrowDown" t f fs)
    true true "ArrowDown" t f fs
  = mkView [stringifyFileKey (id a); stringifyFileKey (id b); stringifyFileKey (id c)] n.
Proof.
  intros Hnd Ha Hb Hc. unfold stringifyFileKey, FileKey.
  rewrite (extend_down_single fs a b i n t f Hnd Ha Hb).
  exact (extend_down_after_down fs a b i n t f Hnd Ha Hb c Hc).
Qed.

Lemma X9_extend_twice_down_witness :
  NoDup (map id filesABCD) /\ nth_error filesABCD 0 = Some fA /\
  nth_error filesABCD 1 = Some fB /\ nth_error filesABCD 2 = Some fC /\
  keystroke (keystroke (mkView ["A"] 0) true true "ArrowDown" elem0 fA filesABCD)
    true true "ArrowDown" elem0 fA filesABCD = mkView ["A"; "B"; "C"] 0.
Proof.
  assert (H : NoDup (map id filesABCD)).
  { simpl. repeat constructor; simpl; intuition discriminate. }
  split; [exact H|]. split; [reflexivity|]. split; [reflexivity|]. split; [reflexivity|].
  exact (X9_extend_twice_down filesABCD fA fB fC 0 0 elem0 fA H eq_refl eq_refl eq_refl).
Defined.

Lemma dir_is_iff (o : option Direction) (d : Direction) :
  dir_is o d = true <-> o = Some d.
Proof. destruct o as [[]|], d; simpl; split; congruence. Qed.

Lemma getAndAddFile_noremove (p0 : MoveSelectionParams)
    (g : list AnyFile -> string -> option AnyFile) (x fid : string) :
  ~ In (SelRemove fid) (getAndAddFile p0 g x).
Proof.
  unfold getAndAddFile. destruct (g _ x); [case_if|]; simpl; intuition discriminate.
Qed.

Lemma moveArm_remove (p0 : MoveSelectionParams)
    (g : list AnyFile -> string -> option AnyFile) (tw op : Direction)
    (sib : option nat) (x fid : string) (d : option Direction) :
  In (SelRemove fid) (effects (moveArm p0 g tw op sib x d)) <->
  (shiftKey p0 && allowMultiple p0 = true /\
   Nat.eqb (length (selectedFileIds p0)) 1 = false /\ dir_is d op = true /\ fid = x).
Proof.
  unfold moveArm. destruct (shiftKey p0 && allowMultiple p0).
  - case_if; [|case_if]; cbn [effects]; split.
    + intros H. exfalso. exact (getAndAddFile_noremove _ _ _ _ H).
    + intros (_ & H & _). discriminate.
    + intros [H | H]; [injection H as ->; auto|].
      exfalso. exact (getAndAddFile_noremove _ _ _ _ H).
    + intros (_ & _ & _ & ->). left. reflexivity.
    + intros H. exfalso. exact (getAndAddFile_noremove _ _ _ _ H).
    + intros (_ & _ & H & _). congruence.
  - cbn [effects]. split; [|intros (H & _); discriminate].
    intros H. exfalso. apply in_app_iff in H as [H | H].
    + destruct sib; simpl in H; intuition discriminate.
    + revert H. case_if; unfold getAndClearAndAddFile;
        destruct (g _ _); simpl; intuition discriminate.
Qed.

(** X10. From a non-empty selection, the call removes an identifier
    exactly when it extends ([shiftKey] and [allowMultiple]) with more
    than one identifier selected against the current direction
    ([ArrowUp] while it is [down], [ArrowDown] while it is [up]); the
    identifier removed is then the last-selected one. *)
Theorem X10_remove_exactly_when_reversing (am sk : bool) (k : string) (t : HTMLElement)
    (f : AnyFile) (fs : list AnyFile) (first : FileKey) (others : list FileKey)
    (fid : string) :
  let sel := first :: others in
  let lastFileId := unstringifyFileKey (last sel first) in
  let d := initialDirection fs first (last sel first) in
  In (SelRemove fid) (effects (maybeMoveSelection (mkParams am sk k t f fs sel))) <->
  (sk && am = true /\ (1 < length sel)%nat /\ fid = lastFileId /\
   ((k = "ArrowUp" /\ d = Some Down) \/ (k = "ArrowDown" /\ d = Some Up))).
Proof.
  cbv zeta. rewrite maybeMoveSelection_cons. cbv zeta.
  assert (Hlen : Nat.eqb (length (first :: others)) 1 = false <->
                 (1 < length (first :: others))%nat).
  { rewrite Nat.eqb_neq. simpl. lia. }
  case_if; [|case_if].
  - apply String.eqb_eq in Hb. subst k.
    rewrite moveArm_remove. cbn [shiftKey allowMultiple selectedFileIds].
    rewrite Hlen, dir_is_iff. split.
    + intros (H1 & H2 & H3 & H4). repeat split; auto.
    + intros (H1 & H2 & H3 & [[_ H4] | [H4 _]]); [repeat split; auto | discriminate].
  - apply String.eqb_eq in Hb0. subst k.
    rewrite moveArm_remove. cbn [shiftKey allowMultiple selectedFileIds].
    rewrite Hlen, dir_is_iff. split.
    + intros (H1 & H2 & H3 & H4). repeat split; auto.
    + intros (H1 & H2 & H3 & [[H4 _] | [_ H4]]); [discriminate | repeat split; auto].
  - cbn [effects In]. split; [intros []|].
    intros (_ & _ & _ & [[-> _] | [-> _]]).
    + rewrite String.eqb_refl in Hb. discriminate.
    + rewrite String.eqb_refl in Hb0. discriminate.
Qed.

(** ** Properties of the access-token effect *)

Lemma searchHas_delete (ps : Layout.SearchParams) (name : string) :
  Layout.searchHas (Layout.searchDelete ps name) name = false.
Proof.
  induction ps as [|[k v] r IH]; [reflexivity|].
  unfold Layout.searchDelete in *. simpl.
  destruct (String.eqb k name) eqn:E; simpl; [exact IH|].
  unfold Layout.searchHas in *. simpl. rewrite E. exact IH.
Qed.

Lemma tokenEffect_cases (stored : option string) (params : Layout.SearchParams) :
  let token := Layout.orElse stored (Layout.searchGet params Layout.gbAccessToken) in
  (Layout.truthy token = false /\ Layout.tokenEffect stored params = ([], params)) \/
  (exists tok, token = Some tok /\ tok <> "" /\
     ((Layout.searchHas params Layout.gbAccessToken = true /\
       Layout.tokenEffect stored params =
         ([Layout.SetToken tok; Layout.Goto (Layout.searchDelete params Layout.gbAccessToken)],
          Layout.searchDelete params Layout.gbAccessToken)) \/
      (Layout.searchHas params Layout.gbAccessToken = false /\
       Layout.tokenEffect stored params = ([Layout.SetToken tok], params)))).
Proof.
  cbv zeta. unfold Layout.tokenEffect.
  destruct (Layout.truthy (Layout.orElse stored _)) eqn:Ht; [right | left; auto].
  destruct (Layout.orElse stored _) as [tok|] eqn:Eo; [|discriminate].
  exists tok. split; [reflexivity|]. split.
  - simpl in Ht. intros ->. discriminate.
  - destruct (Layout.searchHas params Layout.gbAccessToken); auto.
Qed.

(** X11. A non-empty stored token wins over the URL parameter: the
    effect stores that same token and, when the URL carries
    [gb_access_token], navigates to the query without it. *)
Theorem X11_stored_token_wins (v : string) (params : Layout.SearchParams) :
  v <> "" ->
  fst (Layout.tokenEffect (Some v) params) =
    Layout.SetToken v ::
      (if Layout.searchHas params Layout.gbAccessToken
       then [Layout.Goto (Layout.searchDelete params Layout.gbAccessToken)] else []).
Proof.
  intros Hv. unfold Layout.tokenEffect, Layout.orElse.
  assert (Ht : Layout.truthy (Some v) = true)
    by (simpl; apply negb_true_iff, String.eqb_neq, Hv).
  rewrite Ht, Ht. destruct (Layout.searchHas _ _); reflexivity.
Qed.

Lemma X11_stored_token_wins_witness :
  "tok" <> "" /\
  fst (Layout.tokenEffect (Some "tok") [("gb_access_token", "url"); ("x", "1")]) =
    Layout.SetToken "tok" ::
      (if Layout.searchHas [("gb_access_token", "url"); ("x", "1")] Layout.gbAccessToken
       then [Layout.Goto (Layout.searchDelete [("gb_access_token", "url"); ("x", "1")]
                            Layout.gbAccessToken)] else []).
Proof.
  assert (H : "tok" <> "") by discriminate.
  split; [exact H|]. exact (X11_stored_token_wins "tok" _ H).
Defined.

(** X12. The navigation strips the token: every query the effect
    navigates to has no [gb_access_token] and is what is left on the
    page; the page keeps the parameter only when no token is available,
    and then it is left untouched. *)
Theorem X12_navigation_strips_token (stored : option string) (params : Layout.SearchParams) :
  let r := Layout.tokenEffect stored params in
  (forall q, In (Layout.Goto q) (fst r) ->
     Layout.searchHas q Layout.gbAccessToken = false /\ q = snd r) /\
  (Layout.searchHas (snd r) Layout.gbAccessToken = true ->
     Layout.truthy (Layout.orElse stored (Layout.searchGet params Layout.gbAccessToken)) = false /\
     snd r = params).
Proof.
  cbv zeta.
  destruct (tokenEffect_cases stored params)
    as [[Ht ->] | (tok & Eo & Htok & [[Hh ->] | [Hh ->]])]; cbn [fst snd].
  - split; [intros q []|]. intros _. auto.
  - split.
    + intros q [H | [H | []]]; [discriminate|]. injection H as <-.
      split; [apply searchHas_delete | reflexivity].
    + rewrite searchHas_delete. discriminate.
  - split.
    + intros q [H | []]. discriminate.
    + congruence.
Qed.

(** X13. With no usable stored token, an absent or empty
    [gb_access_token] makes the effect do nothing: no token is stored,
    there is no navigation, and an empty parameter stays in the URL. *)
Theorem X13_no_token_no_effect (stored : option string) (params : Layout.SearchParams) :
  Layout.truthy stored = false ->
  (Layout.searchGet params Layout.gbAccessToken = None \/
   Layout.searchGet params Layout.gbAccessToken = Some "") ->
  Layout.tokenEffect stored params = ([], params).
Proof.
  intros Hs Hg. unfold Layout.tokenEffect, Layout.orElse. rewrite Hs.
  destruct Hg as [-> | ->]; reflexivity.
Qed.

Lemma X13_no_token_no_effect_witness :
  Layout.truthy None = false /\
  Layout.searchGet [("gb_access_token", ""); ("x", "1")] Layout.gbAccessToken = Some "" /\
  Layout.tokenEffect None [("gb_access_token", ""); ("x", "1")]
    = ([], [("gb_access_token", ""); ("x", "1")]).
Proof.
  split; [reflexivity|]. split; [reflexivity|].
  apply X13_no_token_no_effect; [reflexivity | right; reflexivity].
Defined.

(** X14. The effect settles after one run: run again with the token it
    stored as the stored token, on the parameters it left, it only
    stores the same token again and does not navigate. *)
Theorem X14_rerun_settles (stored : option string) (params : Layout.SearchParams)
    (tok : string) :
  let r := Layout.tokenEffect stored params in
  In (Layout.SetToken tok) (fst r) ->
  Layout.tokenEffect (Some tok) (snd r) = ([Layout.SetToken tok], snd r).
Proof.
  cbv zeta.
  destruct (tokenEffect_cases stored params)
    as [[Ht ->] | (tok' & Eo & Htok & [[Hh ->] | [Hh ->]])]; cbn [fst snd].
  - intros [].
  - intros [H | [H | []]]; [injection H as <-|discriminate].
    unfold Layout.tokenEffect, Layout.orElse.
    assert (Ht : Layout.truthy (Some tok') = true)
      by (simpl; apply negb_true_iff, String.eqb_neq, Htok).
    rewrite Ht, Ht, searchHas_delete. reflexivity.
  - intros [H | []]. injection H as <-.
    unfold Layout.tokenEffect, Layout.orElse.
    assert (Ht : Layout.truthy (Some tok') = true)
      by (simpl; apply negb_true_iff, String.eqb_neq, Htok).
    rewrite Ht, Ht, Hh. reflexivity.
Qed.

Lemma X14_rerun_settles_witness :
  In (Layout.SetToken "t1") (fst (Layout.tokenEffect None [("gb_access_token", "t1")])) /\
  Layout.tokenEffect (Some "t1") (snd (Layout.tokenEffect None [("gb_access_token", "t1")]))
    = ([Layout.SetToken "t1"], snd (Layout.tokenEffect None [("gb_access_token", "t1")])).
Proof.
  assert (H : In (Layout.SetToken "t1")
                 (fst (Layout.tokenEffect None [("gb_access_token", "t1")])))
    by (left; reflexivity).
  split; [exact H|]. exact (X14_rerun_settles None _ "t1" H).
Defined.

End Selection.
